(** * example.py: one pass of the Streamlit page around the Monaco copilot widget

    The page script of [src/example.py] is embedded as a computation in a
    small monad that threads the host's session state and a journal of the
    effects the script performs (widget call, session writes, sleep, rerun).
    A Python exception and the control transfer of [st.rerun()] both end the
    computation early.  The reply of the widget is an input of the pass. *)

From stdpp Require Import gmap strings list fin_maps.

Open Scope string_scope.

(** ** Python values and the operators the script applies to them *)

Module Py.

(** The scalar values a field of the widget's reply or an entry of the
    session state can hold (floats and nested containers are left out). *)
Inductive pyval : Type :=
  | VNone
  | VBool (b : bool)
  | VInt (z : Z)
  | VStr (s : string).

#[global] Instance pyval_eq_dec : EqDecision pyval.
Proof. solve_decision. Defined.

Inductive exn : Type :=
  | TypeError
  | KeyError (k : string)
  | AttributeError.

(** [bool(v)] *)
Definition truthy (v : pyval) : bool :=
  match v with
  | VNone => false
  | VBool b => b
  | VInt z => negb (Z.eqb z 0)
  | VStr s => negb (String.eqb s "")
  end.

(** [a == b]: [bool] is a subclass of [int], so [True == 1]. *)
Definition py_eq (a b : pyval) : bool :=
  match a, b with
  | VNone, VNone => true
  | VStr s, VStr t => String.eqb s t
  | VBool x, VBool y => Z.eqb (Z.b2z x) (Z.b2z y)
  | VBool x, VInt z => Z.eqb (Z.b2z x) z
  | VInt z, VBool y => Z.eqb z (Z.b2z y)
  | VInt x, VInt y => Z.eqb x y
  | _, _ => false
  end.

(** [a != b] *)
Definition py_ne (a b : pyval) : bool := negb (py_eq a b).

(** [a + b]: concatenation on two strings, addition on two numbers, and
    [TypeError] on every other pair. *)
Definition py_add (a b : pyval) : exn + pyval :=
  match a, b with
  | VStr s, VStr t => inr (VStr (s +:+ t))
  | VBool x, VBool y => inr (VInt (Z.b2z x + Z.b2z y))
  | VBool x, VInt z => inr (VInt (Z.b2z x + z))
  | VInt z, VBool y => inr (VInt (z + Z.b2z y))
  | VInt x, VInt y => inr (VInt (x + y))
  | _, _ => inl TypeError
  end.

(** A [dict] with string keys; the widget's reply, when there is one. *)
Abbreviation dict := (gmap string pyval).

(** [bool(d)] for a dict: it has at least one key. *)
Definition dict_truthy (d : dict) : bool := negb (Nat.eqb (size d) 0).

(** [d.get(k)] *)
Definition dict_get (d : dict) (k : string) : pyval :=
  match d !! k with
  | Some v => v
  | None => VNone
  end.

(** [d.get(k, default)] *)
Definition dict_get_default (d : dict) (k : string) (default : pyval) : pyval :=
  match d !! k with
  | Some v => v
  | None => default
  end.

(** [d[k]] *)
Definition dict_getitem (d : dict) (k : string) : exn + pyval :=
  match d !! k with
  | Some v => inr v
  | None => inl (KeyError k)
  end.

(** The name [value] of the script holds [None] or a dict. *)
Abbreviation reply := (option dict).

(** [bool(value)] *)
Definition reply_truthy (value : reply) : bool :=
  match value with
  | Some d => dict_truthy d
  | None => false
  end.

(** [value.get(k)]; [None] has no attribute [get]. *)
Definition reply_get (value : reply) (k : string) : exn + pyval :=
  match value with
  | Some d => inr (dict_get d k)
  | None => inl AttributeError
  end.

(** [value.get(k, default)] *)
Definition reply_get_default (value : reply) (k : string) (default : pyval)
  : exn + pyval :=
  match value with
  | Some d => inr (dict_get_default d k default)
  | None => inl AttributeError
  end.

(** [value[k]]; [None] is not subscriptable. *)
Definition reply_getitem (value : reply) (k : string) : exn + pyval :=
  match value with
  | Some d => dict_getitem d k
  | None => inl TypeError
  end.

End Py.

Export Py.

(** ** The host: session state, effects, and the script monad *)

Module Streamlit.

(** The keyword arguments of the widget call. *)
Record widget_args : Type := WidgetArgs {
  label : string;
  language : string;
  initial_code : string;
  suggestion : pyval;
  key : string
}.

(** What the script does to its surroundings, in the order it does it. *)
Inductive event : Type :=
  | EWidget (args : widget_args)
  | EMagic (value : reply)
  | ESet (k : string) (v : pyval)
  | ESleep (seconds : Z)
  | ERerun.

(** [st.session_state] is a mapping from string keys to values.  Only the
    script's own reads and writes are modelled; what the host itself keeps
    there for a keyed widget is not. *)
Abbreviation session := (gmap string pyval).

Record host : Type := Host {
  session_state : session;
  journal : list event
}.

(** [st.rerun()] leaves the script by raising the host's rerun exception;
    every other exception is a Python error. *)
Inductive signal : Type :=
  | RerunException
  | Raised (e : exn).

Inductive completion (A : Type) : Type :=
  | Normal (a : A)
  | Abrupt (s : signal).
Arguments Normal {A} a.
Arguments Abrupt {A} s.

Definition Script (A : Type) : Type := host → completion A * host.

#[global] Instance script_ret : MRet Script :=
  λ A a h, (Normal a, h).

#[global] Instance script_bind : MBind Script :=
  λ A B k m h,
    match m h with
    | (Normal a, h') => k a h'
    | (Abrupt s, h') => (Abrupt s, h')
    end.

Definition emit (e : event) : Script unit :=
  λ h, (Normal tt, Host (session_state h) (journal h ++ [e])).

Definition raise {A : Type} (e : exn) : Script A :=
  λ h, (Abrupt (Raised e), h).

(** Evaluation of an expression that may raise. *)
Definition eval {A : Type} (r : exn + A) : Script A :=
  match r with
  | inr a => mret a
  | inl e => raise e
  end.

(** [st.session_state.get(k)] *)
Definition session_get (k : string) : Script pyval :=
  λ h, (Normal (dict_get (session_state h) k), h).

(** [st.session_state.get(k, default)] *)
Definition session_get_default (k : string) (default : pyval) : Script pyval :=
  λ h, (Normal (dict_get_default (session_state h) k default), h).

(** [st.session_state[k] = v] *)
Definition session_setitem (k : string) (v : pyval) : Script unit :=
  λ h, (Normal tt,
        Host (<[k := v]> (session_state h)) (journal h ++ [ESet k v])).

(** [time.sleep(seconds)] *)
Definition time_sleep (seconds : Z) : Script unit := emit (ESleep seconds).

(** [st.rerun()]: never returns to the statement after it. *)
Definition st_rerun : Script unit :=
  λ h, (Abrupt RerunException,
        Host (session_state h) (journal h ++ [ERerun])).

(** The widget call: the host renders the component with these arguments
    and hands back the component's current value, [answer]. *)
Definition st_monaco_copilot (answer : reply) (args : widget_args)
  : Script reply :=
  _ ← emit (EWidget args); mret answer.

(** A bare expression statement: the host displays its value. *)
Definition magic (value : reply) : Script unit := emit (EMagic value).

End Streamlit.

Export Streamlit.

(** ** The script *)

Definition dq : string := String (Ascii.ascii_of_nat 34) EmptyString.

(** ['print("hello world")'] *)
Definition hello_code : string := "print(" +:+ dq +:+ "hello world" +:+ dq +:+ ")".

Definition suggestion_prefix : string := "i have suggestion about this code: `".

(** Lines 7-13: the widget is called with the suggestion of the session. *)
Definition call_widget (answer : reply) : Script reply :=
  s ← session_get_default "suggestion" (VStr "");
  st_monaco_copilot answer (WidgetArgs "foo" "python" hello_code s "fixed").

(** Lines 19-22. *)
Definition extract_new_uuid (value : reply) : Script pyval :=
  c ← (if reply_truthy value
       then u ← eval (reply_get value "uuid"); mret (truthy u)
       else mret false);
  if c : bool then eval (reply_getitem value "uuid") else mret (VStr "").

(** Line 24: [value and new_uuid and new_uuid != st.session_state.get('uuid')]. *)
Definition gate (value : reply) (new_uuid : pyval) : Script bool :=
  if reply_truthy value then
    if truthy new_uuid then
      stored ← session_get "uuid";
      mret (py_ne new_uuid stored)
    else mret false
  else mret false.

(** Lines 25-29. *)
Definition mutate_and_rerun (value : reply) (new_uuid : pyval) : Script unit :=
  before ← eval (reply_get_default value "beforeCursor" (VStr ""));
  t ← eval (py_add (VStr suggestion_prefix) before);
  s ← eval (py_add t (VStr "`"));
  _ ← session_setitem "suggestion" s;
  _ ← session_setitem "uuid" new_uuid;
  _ ← time_sleep 1;
  st_rerun.

(** The whole module body. *)
Definition script (answer : reply) : Script unit :=
  value ← call_widget answer;
  _ ← magic value;
  new_uuid ← extract_new_uuid value;
  go ← gate value new_uuid;
  if go : bool then mutate_and_rerun value new_uuid else mret tt.

(** How a pass ends. *)
Inductive outcome : Type :=
  | Done
  | Rerun
  | Failed (e : exn).

Definition outcome_of {A : Type} (c : completion A) : outcome :=
  match c with
  | Normal _ => Done
  | Abrupt RerunException => Rerun
  | Abrupt (Raised e) => Failed e
  end.

(** One pass from session state [ss] when the widget answers [answer]:
    the outcome, the session state left behind, and the effects in order. *)
Definition run_pass (ss : session) (answer : reply)
  : outcome * session * list event :=
  let '(c, h) := script answer (Host ss []) in
  (outcome_of c, session_state h, journal h).

Definition pass_outcome (ss : session) (answer : reply) : outcome :=
  (run_pass ss answer).1.1.

Definition pass_state (ss : session) (answer : reply) : session :=
  (run_pass ss answer).1.2.

Definition pass_events (ss : session) (answer : reply) : list event :=
  (run_pass ss answer).2.

(** The session state obtained by performing, in order, the session writes
    recorded in a journal. *)
Definition replay (es : list event) (ss : session) : session :=
  foldl (λ acc e, match e with ESet k v => <[k := v]> acc | _ => acc end) ss es.

(** The session states the page can be in after any number of passes from
    [ss0], whatever the widget answers in each. *)
Inductive reachable (ss0 : session) : session → Prop :=
  | reach_start : reachable ss0 ss0
  | reach_pass (ss : session) (answer : reply) :
      reachable ss0 ss → reachable ss0 (pass_state ss answer).

(** The arguments lines 7-13 pass to the widget in session state [ss]. *)
Definition widget_call (ss : session) : widget_args :=
  WidgetArgs "foo" "python" hello_code
    (dict_get_default ss "suggestion" (VStr "")) "fixed".

(** The three conjuncts of line 24 for a reply that is a dict, with
    [new_uuid] replaced by the field it was read from. *)
Definition fires (ss : session) (d : dict) : bool :=
  dict_truthy d && truthy (dict_get d "uuid")
  && py_ne (dict_get d "uuid") (dict_get ss "uuid").

(** ** The replies and session states of the spec's scenarios *)

Definition reply_b : dict :=
  <["uuid" := VStr "abc"]> (<["beforeCursor" := VStr "def"]> ∅).

Definition reply_c : dict :=
  <["uuid" := VStr "abc"]> (<["beforeCursor" := VStr "xyz"]> ∅).

Definition session_c : session := <["uuid" := VStr "abc"]> ∅.

Definition reply_d : dict :=
  <["uuid" := VStr "xyz2"]> (<["beforeCursor" := VStr ""]> ∅).

Definition reply_no_cursor : dict := <["uuid" := VStr "xyz2"]> ∅.

(** A reply whose [beforeCursor] is a number. *)
Definition reply_bad_cursor : dict :=
  <["uuid" := VStr "abc"]> (<["beforeCursor" := VInt 3]> ∅).

(** ** Several passes *)

(** [n] passes in a row, each answered with the same reply. *)
Definition passes_with (answer : reply) (n : nat) (ss : session) : session :=
  Nat.iter n (λ s, pass_state s answer) ss.

(** The two keys of the script go together: either neither was ever
    written, or [uuid] holds a truthy value and [suggestion] holds the
    prefix, some text and the closing backtick. *)
Definition paired (ss : session) : Prop :=
  (ss !! "uuid" = None ∧ ss !! "suggestion" = None)
  ∨ (∃ (v : pyval) (b : string),
       ss !! "uuid" = Some v ∧ truthy v = true
       ∧ ss !! "suggestion" = Some (VStr ((suggestion_prefix +:+ b) +:+ "`"))).

(** ** Python operators *)

Section PyFacts.

Lemma py_eq_refl (v : pyval) : py_eq v v = true.
Proof.
  destruct v as [ | b | z | s]; simpl;
    [reflexivity | apply Z.eqb_refl | apply Z.eqb_refl | apply String.eqb_refl].
Qed.

Lemma py_ne_irrefl (v : pyval) : py_ne v v = false.
Proof. unfold py_ne. by rewrite py_eq_refl. Qed.

Lemma truthy_str (u : string) : truthy (VStr u) = true ↔ u ≠ "".
Proof.
  simpl. rewrite negb_true_iff. split.
  - intros H ->. by rewrite String.eqb_refl in H.
  - intros H. by apply String.eqb_neq.
Qed.

Lemma truthy_not_empty_str (v : pyval) : truthy v = true → v ≠ VStr "".
Proof. intros H ->. by apply truthy_str in H. Qed.

Lemma truthy_not_none (v : pyval) : truthy v = true → py_ne v VNone = true.
Proof. by destruct v. Qed.

Lemma py_ne_str (u : string) (w : pyval) :
  w ≠ VStr u → py_ne (VStr u) w = true.
Proof.
  intros H. unfold py_ne. destruct w as [ | b | z | s]; simpl; try reflexivity.
  apply negb_true_iff, String.eqb_neq. congruence.
Qed.

Lemma dict_truthy_lookup (d : dict) (k : string) (v : pyval) :
  d !! k = Some v → dict_truthy d = true.
Proof.
  intros H. unfold dict_truthy. apply negb_true_iff, Nat.eqb_neq.
  intros Hz. apply map_size_empty_iff in Hz. subst d.
  by rewrite lookup_empty in H.
Qed.

Lemma dict_get_lookup (d : dict) (k : string) (v : pyval) :
  d !! k = Some v → dict_get d k = v.
Proof. intros H. unfold dict_get. by rewrite H. Qed.

Lemma dict_get_absent (d : dict) (k : string) :
  d !! k = None → dict_get d k = VNone.
Proof. intros H. unfold dict_get. by rewrite H. Qed.

Lemma dict_get_truthy (d : dict) (k : string) :
  truthy (dict_get d k) = true → d !! k = Some (dict_get d k).
Proof. unfold dict_get. by destruct (d !! k). Qed.

End PyFacts.

(** ** The shape of a pass *)

Section PassShape.

Variable ss : session.

Ltac run_script :=
  cbv [run_pass script call_widget st_monaco_copilot magic extract_new_uuid
       gate mutate_and_rerun session_get session_get_default session_setitem
       time_sleep st_rerun emit eval raise mbind script_bind mret script_ret
       reply_truthy reply_get reply_get_default reply_getitem outcome_of
       session_state journal widget_call].

Lemma run_pass_absent :
  run_pass ss None = (Done, ss, [EWidget (widget_call ss); EMagic None]).
Proof. run_script. reflexivity. Qed.

Lemma run_pass_closed (d : dict) :
  fires ss d = false →
  run_pass ss (Some d)
  = (Done, ss, [EWidget (widget_call ss); EMagic (Some d)]).
Proof.
  unfold fires. intros H. run_script.
  destruct (dict_truthy d); [ | reflexivity].
  destruct (truthy (dict_get d "uuid")) eqn:Ht.
  - unfold dict_getitem. rewrite (dict_get_truthy _ _ Ht).
    rewrite Ht. simpl in H. by rewrite H.
  - reflexivity.
Qed.

Lemma run_pass_open (d : dict) :
  fires ss d = true →
  run_pass ss (Some d)
  = let quiet := [EWidget (widget_call ss); EMagic (Some d)] in
    match py_add (VStr suggestion_prefix)
                 (dict_get_default d "beforeCursor" (VStr "")) with
    | inl e => (Failed e, ss, quiet)
    | inr t =>
        match py_add t (VStr "`") with
        | inl e => (Failed e, ss, quiet)
        | inr s =>
            (Rerun,
             <["uuid" := dict_get d "uuid"]> (<["suggestion" := s]> ss),
             [EWidget (widget_call ss); EMagic (Some d);
              ESet "suggestion" s; ESet "uuid" (dict_get d "uuid");
              ESleep 1; ERerun])
        end
    end.
Proof.
  unfold fires. intros H.
  apply andb_true_iff in H as [H Hne]. apply andb_true_iff in H as [Hd Ht].
  run_script. rewrite Hd, Ht.
  unfold dict_getitem. rewrite (dict_get_truthy _ _ Ht). rewrite Ht, Hne.
  destruct (py_add (VStr suggestion_prefix) _) as [e | t]; [reflexivity | ].
  destruct (py_add t _) as [e | s0]; reflexivity.
Qed.

(** A pass that does not end in a rerun leaves the session state alone
    and performs nothing but the widget call and the display. *)
Lemma run_pass_quiet (answer : reply) :
  pass_outcome ss answer ≠ Rerun →
  pass_state ss answer = ss
  ∧ pass_events ss answer = [EWidget (widget_call ss); EMagic answer].
Proof.
  unfold pass_outcome, pass_state, pass_events. destruct answer as [d | ].
  - destruct (fires ss d) eqn:Hf.
    + rewrite (run_pass_open d Hf). cbv zeta.
      destruct (py_add (VStr suggestion_prefix) _) as [e | t]; [done | ].
      destruct (py_add t _) as [e | s0]; [done | ].
      simpl. congruence.
    + by rewrite (run_pass_closed d Hf).
  - by rewrite run_pass_absent.
Qed.

(** A pass that ends in a rerun was answered with a dict that opened the
    gate, built its suggestion from a string, and did all four effects. *)
Lemma run_pass_rerun (answer : reply) :
  pass_outcome ss answer = Rerun →
  ∃ (d : dict) (b : string),
    answer = Some d
    ∧ fires ss d = true
    ∧ dict_get_default d "beforeCursor" (VStr "") = VStr b
    ∧ run_pass ss answer
      = (Rerun,
         <["uuid" := dict_get d "uuid"]>
           (<["suggestion" := VStr ((suggestion_prefix +:+ b) +:+ "`")]> ss),
         [EWidget (widget_call ss); EMagic answer;
          ESet "suggestion" (VStr ((suggestion_prefix +:+ b) +:+ "`"));
          ESet "uuid" (dict_get d "uuid"); ESleep 1; ERerun]).
Proof.
  unfold pass_outcome. destruct answer as [d | ].
  - destruct (fires ss d) eqn:Hf.
    + rewrite (run_pass_open d Hf). cbv zeta.
      destruct (dict_get_default d "beforeCursor" (VStr ""))
        as [ | x | z | b] eqn:Hb; simpl; try discriminate.
      intros _. by exists d, b.
    + by rewrite (run_pass_closed d Hf).
  - by rewrite run_pass_absent.
Qed.

Lemma fires_str (d : dict) (u : string) :
  d !! "uuid" = Some (VStr u) → u ≠ "" → ss !! "uuid" ≠ Some (VStr u) →
  fires ss d = true.
Proof.
  intros Hu Hne Hst. unfold fires.
  rewrite (dict_truthy_lookup _ _ _ Hu), (dict_get_lookup _ _ _ Hu).
  rewrite (proj2 (truthy_str u) Hne). simpl.
  apply py_ne_str. unfold dict_get.
  destruct (ss !! "uuid") as [w | ]; congruence.
Qed.

(** Every pass is quiet or ends in a rerun. *)
Lemma run_pass_cases (answer : reply) :
  (pass_outcome ss answer ≠ Rerun
   ∧ pass_state ss answer = ss
   ∧ pass_events ss answer = [EWidget (widget_call ss); EMagic answer])
  ∨ (∃ (d : dict) (s : pyval),
       answer = Some d
       ∧ fires ss d = true
       ∧ pass_outcome ss answer = Rerun
       ∧ pass_state ss answer
         = <["uuid" := dict_get d "uuid"]> (<["suggestion" := s]> ss)
       ∧ pass_events ss answer
         = [EWidget (widget_call ss); EMagic answer; ESet "suggestion" s;
            ESet "uuid" (dict_get d "uuid"); ESleep 1; ERerun]).
Proof.
  destruct (pass_outcome ss answer) eqn:Ho.
  - left. split; [done | ]. apply run_pass_quiet. by rewrite Ho.
  - right. destruct (run_pass_rerun answer Ho) as (d & b & -> & Hf & _ & E).
    exists d, (VStr ((suggestion_prefix +:+ b) +:+ "`")).
    unfold pass_state, pass_events. by rewrite E.
  - left. split; [done | ]. apply run_pass_quiet. by rewrite Ho.
Qed.

Lemma fires_truthy (d : dict) :
  fires ss d = true → truthy (dict_get d "uuid") = true.
Proof.
  unfold fires. intros H.
  apply andb_true_iff in H as [H _]. by apply andb_true_iff in H as [_ H].
Qed.

(** The session state a pass leaves is the one it started from with the
    writes of its journal applied in order. *)
Lemma pass_state_replay (answer : reply) :
  pass_state ss answer = replay (pass_events ss answer) ss.
Proof.
  destruct (run_pass_cases answer) as [(_ & -> & ->) | (d & s & _ & _ & _ & -> & ->)];
    reflexivity.
Qed.

End PassShape.

(** ** The gate *)

Section Gate.

Implicit Types (ss : session) (d : dict) (answer : reply).

(** C1: a reply whose [uuid] is a non-empty string other than the stored
    one makes the pass store that uuid, store the prefix followed by the
    reply's [beforeCursor] and a backtick as the suggestion, and end in
    a rerun. *)
Theorem new_uuid_is_stored_and_reruns ss d (u b : string) :
  d !! "uuid" = Some (VStr u) →
  u ≠ "" →
  ss !! "uuid" ≠ Some (VStr u) →
  d !! "beforeCursor" = Some (VStr b) →
  pass_state ss (Some d) !! "uuid" = Some (VStr u)
  ∧ pass_state ss (Some d) !! "suggestion"
    = Some (VStr (("i have suggestion about this code: `" +:+ b) +:+ "`"))
  ∧ pass_outcome ss (Some d) = Rerun.
Proof.
  intros Hu Hne Hst Hb.
  unfold pass_state, pass_outcome.
  rewrite (run_pass_open ss d (fires_str ss d u Hu Hne Hst)). cbv zeta.
  unfold dict_get_default. rewrite Hb, (dict_get_lookup _ _ _ Hu). simpl.
  split; [apply lookup_insert_eq | ].
  split; [ | reflexivity].
  rewrite lookup_insert_ne by done. apply lookup_insert_eq.
Qed.

Lemma new_uuid_is_stored_and_reruns_witness :
  pass_state ∅ (Some reply_b) !! "uuid" = Some (VStr "abc")
  ∧ pass_state ∅ (Some reply_b) !! "suggestion"
    = Some (VStr (("i have suggestion about this code: `" +:+ "def") +:+ "`"))
  ∧ pass_outcome ∅ (Some reply_b) = Rerun.
Proof.
  apply (new_uuid_is_stored_and_reruns ∅ reply_b "abc" "def");
    [reflexivity | discriminate | discriminate | reflexivity].
Defined.

(** C2: when the widget gives no reply, or a reply without a uuid or with
    an empty one, or one whose uuid is the stored uuid, the pass leaves
    the session state as it was, ends without a rerun, and performs no
    effect besides calling and displaying the widget (no write, no
    sleep). *)
Theorem stale_reply_is_ignored ss answer :
  (answer = None
   ∨ ∃ d, answer = Some d
          ∧ (d !! "uuid" = None
             ∨ d !! "uuid" = Some (VStr "")
             ∨ d !! "uuid" = ss !! "uuid")) →
  pass_state ss answer = ss
  ∧ pass_outcome ss answer = Done
  ∧ pass_events ss answer = [EWidget (widget_call ss); EMagic answer].
Proof.
  unfold pass_state, pass_outcome, pass_events.
  intros [-> | (d & -> & H)]; [by rewrite run_pass_absent | ].
  rewrite (run_pass_closed ss d); [done | ].
  unfold fires. destruct H as [H | [H | H]].
  - rewrite (dict_get_absent _ _ H). simpl. by rewrite andb_false_r.
  - rewrite (dict_get_lookup _ _ _ H). simpl. by rewrite andb_false_r.
  - unfold dict_get at 2 3. rewrite H. fold (dict_get ss "uuid").
    rewrite py_ne_irrefl. by rewrite andb_false_r.
Qed.

Lemma stale_reply_is_ignored_witness :
  pass_state session_c (Some reply_c) = session_c
  ∧ pass_outcome session_c (Some reply_c) = Done
  ∧ pass_events session_c (Some reply_c)
    = [EWidget (widget_call session_c); EMagic (Some reply_c)].
Proof.
  apply (stale_reply_is_ignored session_c (Some reply_c)).
  right. exists reply_c. split; [reflexivity | ].
  right. right. reflexivity.
Defined.

(** C3: when a pass ends in a rerun, a second pass from the session state
    it left, answered with the same reply, changes nothing in the session
    state, ends without a rerun and performs no write. *)
Theorem second_pass_is_quiet ss answer :
  pass_outcome ss answer = Rerun →
  pass_state (pass_state ss answer) answer = pass_state ss answer
  ∧ pass_outcome (pass_state ss answer) answer = Done
  ∧ pass_events (pass_state ss answer) answer
    = [EWidget (widget_call (pass_state ss answer)); EMagic answer].
Proof.
  intros H. destruct (run_pass_rerun ss answer H) as (d & b & -> & _ & _ & E).
  assert (∃ ss', pass_state ss (Some d) = ss'
                 ∧ ss' !! "uuid" = Some (dict_get d "uuid")) as (ss' & -> & Hs).
  { eexists. split; [reflexivity | ].
    unfold pass_state. rewrite E. apply lookup_insert_eq. }
  assert (fires ss' d = false) as Hf.
  { unfold fires. rewrite (dict_get_lookup ss' _ _ Hs).
    rewrite py_ne_irrefl. apply andb_false_r. }
  unfold pass_state, pass_outcome, pass_events.
  by rewrite (run_pass_closed ss' d Hf).
Qed.

Lemma second_pass_is_quiet_witness :
  pass_state (pass_state ∅ (Some reply_b)) (Some reply_b)
  = pass_state ∅ (Some reply_b)
  ∧ pass_outcome (pass_state ∅ (Some reply_b)) (Some reply_b) = Done
  ∧ pass_events (pass_state ∅ (Some reply_b)) (Some reply_b)
    = [EWidget (widget_call (pass_state ∅ (Some reply_b)));
       EMagic (Some reply_b)].
Proof. apply (second_pass_is_quiet ∅ (Some reply_b)). reflexivity. Defined.

(** C4 (scenario B): from the empty session state, the reply
    [{uuid: "abc", beforeCursor: "def"}] leaves exactly the two entries
    [uuid = "abc"] and [suggestion = "i have suggestion about this code:
    `def`"], and the pass ends in a rerun. *)
Theorem scenario_b_exact :
  pass_state ∅ (Some reply_b)
  = list_to_map
      [("uuid", VStr "abc");
       ("suggestion", VStr "i have suggestion about this code: `def`")]
  ∧ pass_outcome ∅ (Some reply_b) = Rerun.
Proof. split; vm_compute; reflexivity. Qed.

(** C5: a reply that opens the gate and whose [beforeCursor] is missing
    or empty stores the prefix directly followed by the closing backtick
    as the suggestion, stores the reply's uuid, and ends in a rerun: a
    missing [beforeCursor] counts as the empty string and raises
    nothing. *)
Theorem empty_before_cursor ss d (u : string) :
  d !! "uuid" = Some (VStr u) →
  u ≠ "" →
  ss !! "uuid" ≠ Some (VStr u) →
  (d !! "beforeCursor" = None ∨ d !! "beforeCursor" = Some (VStr "")) →
  pass_state ss (Some d) !! "suggestion"
  = Some (VStr "i have suggestion about this code: ``")
  ∧ pass_state ss (Some d) !! "uuid" = Some (VStr u)
  ∧ pass_outcome ss (Some d) = Rerun.
Proof.
  intros Hu Hne Hst Hb.
  unfold pass_state, pass_outcome.
  rewrite (run_pass_open ss d (fires_str ss d u Hu Hne Hst)). cbv zeta.
  assert (dict_get_default d "beforeCursor" (VStr "") = VStr "") as ->.
  { unfold dict_get_default. by destruct Hb as [-> | ->]. }
  rewrite (dict_get_lookup _ _ _ Hu). simpl.
  split; [ | split; [apply lookup_insert_eq | reflexivity]].
  rewrite lookup_insert_ne by done. apply lookup_insert_eq.
Qed.

Lemma empty_before_cursor_witness :
  pass_state session_c (Some reply_no_cursor) !! "suggestion"
  = Some (VStr "i have suggestion about this code: ``")
  ∧ pass_state session_c (Some reply_no_cursor) !! "uuid"
    = Some (VStr "xyz2")
  ∧ pass_outcome session_c (Some reply_no_cursor) = Rerun.
Proof.
  apply (empty_before_cursor session_c reply_no_cursor "xyz2");
    [reflexivity | discriminate | discriminate | left; reflexivity].
Defined.

End Gate.

(** ** Reads of absent keys *)

Section Defaults.

(** The read of line 24 in a session state without a [uuid] gives
    [None], which is not the empty string. *)
Lemma absent_uuid_read_counterexample :
  (∅ : session) !! "uuid" = None
  ∧ (session_get "uuid" (Host ∅ [])).1 ≠ Normal (VStr "").
Proof. split; [reflexivity | discriminate]. Qed.

(** C6, amended: an absent [suggestion] is read as the empty string, and
    that is the suggestion the widget is called with; an absent [uuid] is
    read as [None]; with no stored uuid the gate opens for exactly the
    truthy replies with a truthy candidate, which is also what it does
    when the stored uuid is the empty string. *)
Theorem absent_keys_read (ss_s ss_u : session) :
  ss_s !! "suggestion" = None →
  ss_u !! "uuid" = None →
  (session_get_default "suggestion" (VStr "") (Host ss_s [])).1
  = Normal (VStr "")
  ∧ (∀ answer : reply,
       head (pass_events ss_s answer)
       = Some (EWidget (WidgetArgs "foo" "python" hello_code (VStr "") "fixed")))
  ∧ (session_get "uuid" (Host ss_u [])).1 = Normal VNone
  ∧ (∀ (value : reply) (new_uuid : pyval),
       (gate value new_uuid (Host ss_u [])).1
       = Normal (reply_truthy value && truthy new_uuid))
  ∧ (∀ (value : reply) (new_uuid : pyval),
       (gate value new_uuid (Host ss_u [])).1
       = (gate value new_uuid (Host (<["uuid" := VStr ""]> ss_u) [])).1).
Proof.
  intros Hs Hu.
  assert (∀ (value : reply) (new_uuid : pyval),
            (gate value new_uuid (Host ss_u [])).1
            = Normal (reply_truthy value && truthy new_uuid)) as Hgate.
  { intros value v. unfold gate.
    destruct (reply_truthy value); [ | reflexivity].
    destruct (truthy v) eqn:Ht; [ | reflexivity].
    cbv [mbind script_bind session_get mret script_ret session_state].
    rewrite (dict_get_absent _ _ Hu). simpl. by rewrite (truthy_not_none v Ht). }
  split; [ | split; [ | split; [ | split]]].
  - simpl. unfold dict_get_default. by rewrite Hs.
  - intros answer.
    destruct (run_pass_cases ss_s answer)
      as [(_ & _ & ->) | (d & s & _ & _ & _ & _ & ->)];
      simpl; unfold widget_call, dict_get_default; by rewrite Hs.
  - simpl. by rewrite (dict_get_absent _ _ Hu).
  - exact Hgate.
  - intros value v. rewrite Hgate. unfold gate.
    destruct (reply_truthy value); [ | reflexivity].
    destruct (truthy v) eqn:Ht; [ | reflexivity].
    cbv [mbind script_bind session_get mret script_ret session_state].
    unfold dict_get. rewrite lookup_insert_eq. simpl.
    destruct v as [ | x | z | u]; try reflexivity.
    unfold py_ne. simpl. simpl in Ht.
    apply negb_true_iff in Ht. by rewrite Ht.
Qed.

Lemma absent_keys_read_witness :
  (session_get_default "suggestion" (VStr "") (Host ∅ [])).1
  = Normal (VStr "")
  ∧ (∀ answer : reply,
       head (pass_events ∅ answer)
       = Some (EWidget (WidgetArgs "foo" "python" hello_code (VStr "") "fixed")))
  ∧ (session_get "uuid" (Host ∅ [])).1 = Normal VNone
  ∧ (∀ (value : reply) (new_uuid : pyval),
       (gate value new_uuid (Host ∅ [])).1
       = Normal (reply_truthy value && truthy new_uuid))
  ∧ (∀ (value : reply) (new_uuid : pyval),
       (gate value new_uuid (Host ∅ [])).1
       = (gate value new_uuid (Host (<["uuid" := VStr ""]> ∅) [])).1).
Proof. apply (absent_keys_read ∅ ∅); reflexivity. Defined.

End Defaults.

(** ** Order of effects, frame, invariant, determinism *)

Section Effects.

Implicit Types (ss : session) (d : dict) (answer : reply).

Lemma rerun_aborts (k : unit → Script unit) (h : host) :
  (st_rerun ≫= k) h = st_rerun h.
Proof. reflexivity. Qed.

(** C7: a pass that writes to the session state, sleeps or reruns was
    answered with a dict [d] and does all of it, in this order: store the
    new suggestion (the prefix, [d]'s [beforeCursor] and a backtick), store
    the candidate uuid (the value lines 19-22 extract, [d]'s truthy
    [uuid]), sleep one second, rerun.  The rerun is the last effect,
    nothing sequenced after [st.rerun()] runs, and the session state on
    which the rerun is requested already holds that suggestion and that
    uuid. *)
Theorem effects_in_order ss answer :
  ((∃ k v, ESet k v ∈ pass_events ss answer)
   ∨ (∃ n, ESleep n ∈ pass_events ss answer)
   ∨ ERerun ∈ pass_events ss answer
   ∨ pass_outcome ss answer = Rerun) →
  ∃ (d : dict) (b : string) (s u : pyval),
    answer = Some d
    ∧ dict_get_default d "beforeCursor" (VStr "") = VStr b
    ∧ s = VStr (("i have suggestion about this code: `" +:+ b) +:+ "`")
    ∧ d !! "uuid" = Some u
    ∧ truthy u = true
    ∧ (∀ h : host, extract_new_uuid answer h = (Normal u, h))
    ∧ pass_events ss answer
      = [EWidget (widget_call ss); EMagic answer;
         ESet "suggestion" s; ESet "uuid" u; ESleep 1; ERerun]
    ∧ pass_outcome ss answer = Rerun
    ∧ last (pass_events ss answer) = Some ERerun
    ∧ (∀ (k : unit → Script unit) (h : host), (st_rerun ≫= k) h = st_rerun h)
    ∧ replay [EWidget (widget_call ss); EMagic answer;
              ESet "suggestion" s; ESet "uuid" u] ss
      = pass_state ss answer
    ∧ pass_state ss answer !! "suggestion" = Some s
    ∧ pass_state ss answer !! "uuid" = Some u.
Proof.
  intros H.
  assert (pass_outcome ss answer = Rerun) as Ho.
  { destruct (run_pass_cases ss answer)
      as [(Hq & _ & E) | (_ & _ & _ & _ & Ho & _)]; [ | exact Ho].
    exfalso. rewrite E in H.
    destruct H as [(k & v & H) | [(n & H) | [H | H]]]; [ | | | done];
      repeat (apply elem_of_cons in H as [H | H]; [discriminate | ]);
      by apply elem_of_nil in H. }
  destruct (run_pass_rerun ss answer Ho) as (d & b & -> & Hf & Hb & E).
  pose proof (fires_truthy ss d Hf) as Ht.
  pose proof (dict_get_truthy d "uuid" Ht) as Hu.
  exists d, b, (VStr ((suggestion_prefix +:+ b) +:+ "`")), (dict_get d "uuid").
  split; [reflexivity | ]. split; [exact Hb | ]. split; [reflexivity | ].
  split; [exact Hu | ]. split; [exact Ht | ].
  split.
  { intros h. unfold extract_new_uuid.
    cbv [mbind script_bind mret script_ret eval raise reply_truthy reply_get
         reply_getitem dict_getitem].
    by rewrite (dict_truthy_lookup d "uuid" _ Hu), Ht, Hu. }
  unfold pass_events, pass_outcome, pass_state. rewrite E.
  split; [reflexivity | ]. split; [reflexivity | ].
  split; [reflexivity | ]. split; [exact rerun_aborts | ].
  split; [reflexivity | ].
  split; [ | apply lookup_insert_eq].
  simpl. rewrite lookup_insert_ne by done. apply lookup_insert_eq.
Qed.

Lemma effects_in_order_witness :
  ∃ (d : dict) (b : string) (s u : pyval),
    Some reply_b = Some d
    ∧ dict_get_default d "beforeCursor" (VStr "") = VStr b
    ∧ s = VStr (("i have suggestion about this code: `" +:+ b) +:+ "`")
    ∧ d !! "uuid" = Some u
    ∧ truthy u = true
    ∧ (∀ h : host, extract_new_uuid (Some reply_b) h = (Normal u, h))
    ∧ pass_events ∅ (Some reply_b)
      = [EWidget (widget_call ∅); EMagic (Some reply_b);
         ESet "suggestion" s; ESet "uuid" u; ESleep 1; ERerun]
    ∧ pass_outcome ∅ (Some reply_b) = Rerun
    ∧ last (pass_events ∅ (Some reply_b)) = Some ERerun
    ∧ (∀ (k : unit → Script unit) (h : host), (st_rerun ≫= k) h = st_rerun h)
    ∧ replay [EWidget (widget_call ∅); EMagic (Some reply_b);
              ESet "suggestion" s; ESet "uuid" u] ∅
      = pass_state ∅ (Some reply_b)
    ∧ pass_state ∅ (Some reply_b) !! "suggestion" = Some s
    ∧ pass_state ∅ (Some reply_b) !! "uuid" = Some u.
Proof.
  apply (effects_in_order ∅ (Some reply_b)).
  right. right. right. reflexivity.
Defined.

(** C8: a pass writes no session key other than [suggestion] and [uuid],
    leaves the value of every other key as it was, and removes no key. *)
Theorem pass_frame ss answer :
  (∀ k v, ESet k v ∈ pass_events ss answer → k = "suggestion" ∨ k = "uuid")
  ∧ (∀ k, k ≠ "suggestion" → k ≠ "uuid" →
          pass_state ss answer !! k = ss !! k)
  ∧ (∀ k, is_Some (ss !! k) → is_Some (pass_state ss answer !! k)).
Proof.
  destruct (run_pass_cases ss answer)
    as [(_ & -> & ->) | (d & s & _ & _ & _ & -> & ->)].
  - split; [ | done]. intros k v H.
    repeat (apply elem_of_cons in H as [H | H]; [discriminate | ]).
    by apply elem_of_nil in H.
  - split; [ | split].
    + intros k v H.
      repeat (apply elem_of_cons in H as [H | H];
              [first [discriminate | injection H as -> _; tauto] | ]).
      by apply elem_of_nil in H.
    + intros k Hs Hu. by rewrite !lookup_insert_ne.
    + intros k Hk. rewrite !lookup_insert. repeat case_decide; eauto.
Qed.

Lemma pass_keeps_uuid_nonempty ss answer :
  ss !! "uuid" ≠ Some (VStr "") →
  pass_state ss answer !! "uuid" ≠ Some (VStr "").
Proof.
  intros H.
  destruct (run_pass_cases ss answer)
    as [(_ & -> & _) | (d & s & _ & Hf & _ & -> & _)]; [done | ].
  rewrite lookup_insert_eq. intros [= E].
  by apply (truthy_not_empty_str _ (fires_truthy ss d Hf)).
Qed.

(** C9: whatever a pass writes under [uuid] is truthy, so it is never the
    empty string, and it is the reply's uuid, a non-empty string when that
    field is a string; hence in every session state reachable from one
    whose [uuid] is absent or not the empty string, the [uuid] entry is
    not the empty string. *)
Theorem stored_uuid_never_empty (ss0 ss : session) :
  ss0 !! "uuid" ≠ Some (VStr "") →
  reachable ss0 ss →
  ss !! "uuid" ≠ Some (VStr "")
  ∧ (∀ answer v,
       ESet "uuid" v ∈ pass_events ss answer →
       truthy v = true
       ∧ v ≠ VStr ""
       ∧ (∀ d u, answer = Some d → d !! "uuid" = Some (VStr u) →
                 v = VStr u ∧ u ≠ "")).
Proof.
  intros H0 Hr. split.
  - induction Hr as [ | ss answer _ IH]; [exact H0 | ].
    by apply pass_keeps_uuid_nonempty.
  - intros answer v Hin.
    destruct (run_pass_cases ss answer)
      as [(_ & _ & E) | (d & s & -> & Hf & _ & _ & E)]; rewrite E in Hin.
    + repeat (apply elem_of_cons in Hin as [Hin | Hin]; [discriminate | ]).
      by apply elem_of_nil in Hin.
    + assert (v = dict_get d "uuid") as ->.
      { repeat (apply elem_of_cons in Hin as [Hin | Hin];
                [first [discriminate | by injection Hin] | ]).
        by apply elem_of_nil in Hin. }
      pose proof (fires_truthy ss d Hf) as Ht.
      split; [exact Ht | ]. split; [by apply truthy_not_empty_str | ].
      intros d' u [= <-] Hu. rewrite (dict_get_lookup _ _ _ Hu) in Ht |- *.
      split; [reflexivity | by apply truthy_str].
Qed.

Lemma stored_uuid_never_empty_witness :
  pass_state ∅ (Some reply_b) !! "uuid" ≠ Some (VStr "")
  ∧ (∀ answer v,
       ESet "uuid" v ∈ pass_events (pass_state ∅ (Some reply_b)) answer →
       truthy v = true
       ∧ v ≠ VStr ""
       ∧ (∀ d u, answer = Some d → d !! "uuid" = Some (VStr u) →
                 v = VStr u ∧ u ≠ "")).
Proof.
  apply (stored_uuid_never_empty ∅ (pass_state ∅ (Some reply_b))).
  - discriminate.
  - apply reach_pass, reach_start.
Defined.

Lemma widget_call_agree (ss1 ss2 : session) :
  ss1 !! "suggestion" = ss2 !! "suggestion" →
  widget_call ss1 = widget_call ss2.
Proof. intros H. unfold widget_call, dict_get_default. by rewrite H. Qed.

Lemma fires_agree (ss1 ss2 : session) d :
  ss1 !! "uuid" = ss2 !! "uuid" → fires ss1 d = fires ss2 d.
Proof. intros H. unfold fires, dict_get. by rewrite H. Qed.

Lemma run_pass_agree (ss1 ss2 : session) answer :
  ss1 !! "suggestion" = ss2 !! "suggestion" →
  ss1 !! "uuid" = ss2 !! "uuid" →
  pass_outcome ss1 answer = pass_outcome ss2 answer
  ∧ pass_events ss1 answer = pass_events ss2 answer.
Proof.
  intros Hs Hu. unfold pass_outcome, pass_events.
  destruct answer as [d | ].
  - destruct (fires ss1 d) eqn:Hf.
    + rewrite (run_pass_open ss1 d Hf).
      rewrite (fires_agree _ _ d Hu) in Hf. rewrite (run_pass_open ss2 d Hf).
      rewrite (widget_call_agree _ _ Hs). cbv zeta.
      destruct (py_add (VStr suggestion_prefix) _) as [e | t]; [done | ].
      by destruct (py_add t _).
    + rewrite (run_pass_closed ss1 d Hf).
      rewrite (fires_agree _ _ d Hu) in Hf. rewrite (run_pass_closed ss2 d Hf).
      by rewrite (widget_call_agree _ _ Hs).
  - by rewrite !run_pass_absent, (widget_call_agree _ _ Hs).
Qed.

(** C10: the outcome and the effects of a pass are the same from any two
    session states with the same [suggestion] and [uuid] entries under
    the same reply; the session state left is the initial one with the
    journal's writes applied, so the two final states agree on every key
    on which the initial ones agree; from equal session states and equal
    replies the whole result is equal. *)
Theorem pass_deterministic (ss1 ss2 : session) (answer1 answer2 : reply) :
  ss1 !! "suggestion" = ss2 !! "suggestion" →
  ss1 !! "uuid" = ss2 !! "uuid" →
  answer1 = answer2 →
  pass_outcome ss1 answer1 = pass_outcome ss2 answer2
  ∧ pass_events ss1 answer1 = pass_events ss2 answer2
  ∧ pass_state ss1 answer1 = replay (pass_events ss1 answer1) ss1
  ∧ pass_state ss2 answer2 = replay (pass_events ss1 answer1) ss2
  ∧ (∀ k, ss1 !! k = ss2 !! k →
          pass_state ss1 answer1 !! k = pass_state ss2 answer2 !! k)
  ∧ (ss1 = ss2 → run_pass ss1 answer1 = run_pass ss2 answer2).
Proof.
  intros Hs Hu <-.
  destruct (run_pass_agree ss1 ss2 answer1 Hs Hu) as [Ho He].
  split; [exact Ho | ]. split; [exact He | ].
  split; [apply pass_state_replay | ].
  split; [rewrite He; apply pass_state_replay | ].
  split; [ | by intros ->].
  intros k Hk. rewrite (pass_state_replay ss1), (pass_state_replay ss2), <- He.
  generalize (pass_events ss1 answer1). intros es.
  clear Hs Hu Ho He. revert ss1 ss2 Hk. induction es as [ | e es IH]; intros ss1 ss2 Hk.
  - exact Hk.
  - simpl. apply IH. destruct e as [ | | k' v | | ]; try exact Hk.
    rewrite !lookup_insert. by case_decide.
Qed.

Lemma pass_deterministic_witness :
  pass_outcome ∅ (Some reply_b) = pass_outcome (<["other" := VInt 7]> ∅) (Some reply_b)
  ∧ pass_events ∅ (Some reply_b)
    = pass_events (<["other" := VInt 7]> ∅) (Some reply_b)
  ∧ pass_state ∅ (Some reply_b) = replay (pass_events ∅ (Some reply_b)) ∅
  ∧ pass_state (<["other" := VInt 7]> ∅) (Some reply_b)
    = replay (pass_events ∅ (Some reply_b)) (<["other" := VInt 7]> ∅)
  ∧ (∀ k, (∅ : session) !! k = (<["other" := VInt 7]> ∅ : session) !! k →
          pass_state ∅ (Some reply_b) !! k
          = pass_state (<["other" := VInt 7]> ∅) (Some reply_b) !! k)
  ∧ ((∅ : session) = <["other" := VInt 7]> ∅ →
     run_pass ∅ (Some reply_b)
     = run_pass (<["other" := VInt 7]> ∅) (Some reply_b)).
Proof.
  apply (pass_deterministic ∅ (<["other" := VInt 7]> ∅)
           (Some reply_b) (Some reply_b)); reflexivity.
Defined.

End Effects.

(** ** The remaining scenarios, and the one way a pass can fail *)

Section Scenarios.

(** Scenario A: empty session state, no reply. *)
Example scenario_a : run_pass ∅ None
  = (Done, ∅, [EWidget (widget_call ∅); EMagic None]).
Proof. reflexivity. Qed.

(** Scenario C: the reply repeats the stored uuid. *)
Example scenario_c : run_pass session_c (Some reply_c)
  = (Done, session_c, [EWidget (widget_call session_c); EMagic (Some reply_c)]).
Proof. vm_compute. reflexivity. Qed.

(** Scenario D: a new uuid with an empty [beforeCursor]. *)
Example scenario_d :
  pass_outcome session_c (Some reply_d) = Rerun
  ∧ pass_state session_c (Some reply_d)
    = list_to_map
        [("uuid", VStr "xyz2");
         ("suggestion", VStr "i have suggestion about this code: ``")].
Proof. split; vm_compute; reflexivity. Qed.

(** Concatenating the prefix with a number raises before anything is
    written. *)
Example bad_cursor_raises : run_pass ∅ (Some reply_bad_cursor)
  = (Failed TypeError, ∅,
     [EWidget (widget_call ∅); EMagic (Some reply_bad_cursor)]).
Proof. vm_compute. reflexivity. Qed.

(** The lookups of lines 19-25 never raise: the only exception a pass can
    end with is the [TypeError] of the concatenation. *)
Lemma pass_fails_only_on_concat (ss : session) (answer : reply) (e : exn) :
  pass_outcome ss answer = Failed e →
  e = TypeError
  ∧ ∃ d, answer = Some d ∧ fires ss d = true
         ∧ ∀ b, dict_get_default d "beforeCursor" (VStr "") ≠ VStr b.
Proof.
  unfold pass_outcome. destruct answer as [d | ].
  - destruct (fires ss d) eqn:Hf.
    + rewrite (run_pass_open ss d Hf). cbv zeta.
      destruct (dict_get_default d "beforeCursor" (VStr ""))
        as [ | x | z | b] eqn:Hb; simpl; intros [= <-];
        (split; [reflexivity | ]; exists d;
         split; [reflexivity | ]; split; [exact Hf | ];
         intros b; rewrite Hb; discriminate).
    + by rewrite (run_pass_closed ss d Hf).
  - by rewrite run_pass_absent.
Qed.

End Scenarios.

(** ** When a pass reruns, fails, or ends *)

Section Outcomes.

Implicit Types (ss : session) (d : dict) (answer : reply).

Lemma fires_iff ss d :
  fires ss d = true
  ↔ truthy (dict_get d "uuid") = true
    ∧ py_ne (dict_get d "uuid") (dict_get ss "uuid") = true.
Proof.
  unfold fires. rewrite !andb_true_iff. split; [tauto | ].
  intros [Ht Hn]. repeat split; [ | exact Ht | exact Hn].
  exact (dict_truthy_lookup _ _ _ (dict_get_truthy _ _ Ht)).
Qed.

(** X1. Lines 19-29: a pass ends in a rerun exactly when the reply is a dict
    whose [uuid] is truthy and differs (by [!=]) from the stored one, and
    whose [beforeCursor], or the empty string in its absence, is a
    string. *)
Theorem rerun_iff ss answer :
  pass_outcome ss answer = Rerun
  ↔ ∃ (d : dict) (b : string),
      answer = Some d
      ∧ truthy (dict_get d "uuid") = true
      ∧ py_ne (dict_get d "uuid") (dict_get ss "uuid") = true
      ∧ dict_get_default d "beforeCursor" (VStr "") = VStr b.
Proof.
  split.
  - intros H. destruct (run_pass_rerun ss answer H) as (d & b & -> & Hf & Hb & _).
    apply fires_iff in Hf as [Ht Hn]. by exists d, b.
  - intros (d & b & -> & Ht & Hn & Hb).
    unfold pass_outcome.
    rewrite (run_pass_open ss d (proj2 (fires_iff ss d) (conj Ht Hn))).
    cbv zeta. by rewrite Hb.
Qed.

(** X2. Line 25: the only exception a pass can raise is [TypeError], exactly
    when the gate is open and [beforeCursor] is present but not a string;
    the session state is then as before and nothing was written. *)
Theorem failure_iff ss answer (e : exn) :
  (pass_outcome ss answer = Failed e
   ↔ e = TypeError
     ∧ ∃ d, answer = Some d
            ∧ truthy (dict_get d "uuid") = true
            ∧ py_ne (dict_get d "uuid") (dict_get ss "uuid") = true
            ∧ ∀ b, dict_get_default d "beforeCursor" (VStr "") ≠ VStr b)
  ∧ (pass_outcome ss answer = Failed e →
     pass_state ss answer = ss
     ∧ pass_events ss answer = [EWidget (widget_call ss); EMagic answer]).
Proof.
  split; [split | ].
  - intros H. destruct (pass_fails_only_on_concat ss answer e H)
      as (-> & d & -> & Hf & Hb).
    apply fires_iff in Hf as [Ht Hn]. split; [reflexivity | by exists d].
  - intros (-> & d & -> & Ht & Hn & Hb).
    unfold pass_outcome.
    rewrite (run_pass_open ss d (proj2 (fires_iff ss d) (conj Ht Hn))).
    cbv zeta.
    destruct (dict_get_default d "beforeCursor" (VStr "")) as [ | x | z | b];
      [reflexivity | reflexivity | reflexivity | by destruct (Hb b)].
  - intros H. apply run_pass_quiet. by rewrite H.
Qed.

(** X3. Lines 19-24: a pass ends normally exactly when there is no reply, or
    the reply's [uuid] is falsy (missing, [None], empty, zero, [False]),
    or it is equal (by [==]) to the stored one. *)
Theorem done_iff ss answer :
  pass_outcome ss answer = Done
  ↔ answer = None
    ∨ ∃ d, answer = Some d
           ∧ (truthy (dict_get d "uuid") = false
              ∨ py_eq (dict_get d "uuid") (dict_get ss "uuid") = true).
Proof.
  unfold pass_outcome. split.
  - destruct answer as [d | ]; [ | by left]. intros H. right. exists d.
    split; [reflexivity | ].
    destruct (fires ss d) eqn:Hf.
    + rewrite (run_pass_open ss d Hf) in H. cbv zeta in H.
      destruct (py_add (VStr suggestion_prefix) _) as [e | t]; [done | ].
      by destruct (py_add t _).
    + destruct (truthy (dict_get d "uuid")) eqn:Ht; [ | by left]. right.
      destruct (py_eq (dict_get d "uuid") (dict_get ss "uuid")) eqn:He; [done | ].
      assert (fires ss d = true) as Hf'; [ | congruence].
      apply fires_iff. split; [exact Ht | ]. unfold py_ne. by rewrite He.
  - intros [-> | (d & -> & H)]; [by rewrite run_pass_absent | ].
    rewrite (run_pass_closed ss d); [done | ].
    destruct (fires ss d) eqn:Hf; [ | done].
    apply fires_iff in Hf as [Ht Hn]. unfold py_ne in Hn.
    destruct H as [H | H]; [congruence | ]. by rewrite H in Hn.
Qed.

(** X4. Lines 19-22: reading the candidate never raises (the subscript is only
    reached for a key that [get] found) and touches nothing; the candidate
    is the empty string or a truthy field [uuid] of the reply. *)
Theorem extract_new_uuid_safe (value : reply) (h : host) :
  ∃ v, extract_new_uuid value h = (Normal v, h)
       ∧ (v = VStr ""
          ∨ (truthy v = true ∧ ∃ d, value = Some d ∧ d !! "uuid" = Some v)).
Proof.
  unfold extract_new_uuid.
  cbv [mbind script_bind mret script_ret eval raise reply_truthy reply_get
       reply_getitem].
  destruct value as [d | ]; [ | by exists (VStr ""); split; [ | left]].
  destruct (dict_truthy d); [ | by exists (VStr ""); split; [ | left]].
  destruct (truthy (dict_get d "uuid")) eqn:Ht;
    [ | by exists (VStr ""); split; [ | left]].
  exists (dict_get d "uuid"). unfold dict_getitem.
  rewrite (dict_get_truthy _ _ Ht). split; [reflexivity | ].
  right. split; [exact Ht | ]. exists d. split; [reflexivity | ].
  by apply dict_get_truthy.
Qed.

End Outcomes.

(** ** The widget call and the suggestion it is given *)

Section WidgetCall.

Implicit Types (ss : session) (d : dict) (answer : reply).

(** X5. Lines 7-16: every pass, however it ends, first calls the widget, once,
    under the key [fixed] with the same label, language and initial code
    and with the session's [suggestion] (the empty string if there is
    none), and then displays the reply, once. *)
Theorem widget_called_once_then_shown ss answer :
  ∃ (a : widget_args) (rest : list event),
    pass_events ss answer = EWidget a :: EMagic answer :: rest
    ∧ label a = "foo" ∧ language a = "python"
    ∧ initial_code a = hello_code ∧ key a = "fixed"
    ∧ suggestion a = dict_get_default ss "suggestion" (VStr "")
    ∧ (∀ a', EWidget a' ∉ rest) ∧ (∀ v, EMagic v ∉ rest).
Proof.
  destruct (run_pass_cases ss answer)
    as [(_ & _ & ->) | (d & s & -> & _ & _ & _ & ->)];
    eexists _, _; (split; [reflexivity | ]); repeat (split; [reflexivity | ]);
    split; intros x H;
    repeat (apply elem_of_cons in H as [H | H]; [discriminate | ]);
    by apply elem_of_nil in H.
Qed.

(** X6. Lines 11, 25 and 29: the pass that stores a new suggestion has called
    the widget with the old one; the pass after it calls the widget with
    the one just stored, whatever the widget answers then. *)
Theorem next_pass_shows_new_suggestion ss answer :
  pass_outcome ss answer = Rerun →
  ∃ (d : dict) (b : string),
    answer = Some d
    ∧ dict_get_default d "beforeCursor" (VStr "") = VStr b
    ∧ head (pass_events ss answer)
      = Some (EWidget (WidgetArgs "foo" "python" hello_code
                         (dict_get_default ss "suggestion" (VStr "")) "fixed"))
    ∧ ∀ answer',
        head (pass_events (pass_state ss answer) answer')
        = Some (EWidget (WidgetArgs "foo" "python" hello_code
                           (VStr ((suggestion_prefix +:+ b) +:+ "`")) "fixed")).
Proof.
  intros H. destruct (run_pass_rerun ss answer H) as (d & b & -> & _ & Hb & E).
  exists d, b. split; [reflexivity | ]. split; [exact Hb | ].
  unfold pass_events at 1, pass_state. rewrite E. split; [reflexivity | ].
  intros answer'. simpl.
  destruct (run_pass_cases
              (<["uuid" := dict_get d "uuid"]>
                 (<["suggestion" := VStr ((suggestion_prefix +:+ b) +:+ "`")]> ss))
              answer')
    as [(_ & _ & ->) | (d' & s' & _ & _ & _ & _ & ->)];
    simpl; unfold widget_call, dict_get_default;
    rewrite lookup_insert_ne by done; by rewrite lookup_insert_eq.
Qed.

Lemma next_pass_shows_new_suggestion_witness :
  ∃ (d : dict) (b : string),
    Some reply_b = Some d
    ∧ dict_get_default d "beforeCursor" (VStr "") = VStr b
    ∧ head (pass_events ∅ (Some reply_b))
      = Some (EWidget (WidgetArgs "foo" "python" hello_code
                         (dict_get_default ∅ "suggestion" (VStr "")) "fixed"))
    ∧ ∀ answer',
        head (pass_events (pass_state ∅ (Some reply_b)) answer')
        = Some (EWidget (WidgetArgs "foo" "python" hello_code
                           (VStr ((suggestion_prefix +:+ b) +:+ "`")) "fixed")).
Proof. apply (next_pass_shows_new_suggestion ∅ (Some reply_b)). reflexivity. Defined.

Lemma append_backtick_inj (s t : string) : s +:+ "`" = t +:+ "`" → s = t.
Proof.
  revert t. induction s as [ | a s IH]; intros [ | c t]; simpl.
  - reflexivity.
  - intros [= _ H]. by destruct t.
  - intros [= _ H]. by destruct s.
  - intros [= -> H]. f_equal. by apply IH.
Qed.

(** X7. Line 25: the stored suggestion determines the text before the cursor:
    two passes that store the same suggestion were given the same
    [beforeCursor], also when that text itself contains backticks. *)
Theorem suggestion_determines_before_cursor ss1 ss2 d1 d2 :
  pass_outcome ss1 (Some d1) = Rerun →
  pass_outcome ss2 (Some d2) = Rerun →
  pass_state ss1 (Some d1) !! "suggestion"
  = pass_state ss2 (Some d2) !! "suggestion" →
  dict_get_default d1 "beforeCursor" (VStr "")
  = dict_get_default d2 "beforeCursor" (VStr "").
Proof.
  intros H1 H2.
  destruct (run_pass_rerun ss1 _ H1) as (d & b1 & [= <-] & _ & -> & E1).
  destruct (run_pass_rerun ss2 _ H2) as (d & b2 & [= <-] & _ & -> & E2).
  unfold pass_state. rewrite E1, E2. simpl.
  rewrite !(lookup_insert_ne _ "uuid" "suggestion") by done.
  rewrite !lookup_insert_eq. intros [= H]. f_equal.
  apply append_backtick_inj. unfold suggestion_prefix in H. simpl in H.
  exact H.
Qed.

Lemma suggestion_determines_before_cursor_witness :
  dict_get_default reply_b "beforeCursor" (VStr "")
  = dict_get_default (<["uuid" := VStr "q"]> reply_b) "beforeCursor" (VStr "").
Proof.
  apply (suggestion_determines_before_cursor ∅ session_c
           reply_b (<["uuid" := VStr "q"]> reply_b)); reflexivity.
Defined.

End WidgetCall.

(** ** Sessions of several passes *)

Section Sessions.

Implicit Types (ss : session) (d : dict) (answer : reply).

(** X8. Lines 24-26: after a pass that did not raise, the stored [uuid] is the
    non-empty string [uuid] of the reply, whether the pass had to write it
    or found it there. *)
Theorem stored_uuid_tracks_reply ss d (u : string) :
  d !! "uuid" = Some (VStr u) →
  u ≠ "" →
  (∀ e, pass_outcome ss (Some d) ≠ Failed e) →
  pass_state ss (Some d) !! "uuid" = Some (VStr u).
Proof.
  intros Hu Hne Hok.
  destruct (decide (ss !! "uuid" = Some (VStr u))) as [Hs | Hs].
  - destruct (run_pass_cases ss (Some d))
      as [(_ & -> & _) | (d' & s & [= <-] & Hf & _ & _ & _)]; [exact Hs | ].
    apply fires_iff in Hf as [_ Hn].
    rewrite (dict_get_lookup _ _ _ Hu), (dict_get_lookup _ _ _ Hs) in Hn.
    by rewrite py_ne_irrefl in Hn.
  - pose proof (fires_str ss d u Hu Hne Hs) as Hf.
    specialize (Hok TypeError). unfold pass_outcome in Hok.
    unfold pass_state. rewrite (run_pass_open ss d Hf) in Hok |- *.
    cbv zeta in Hok |- *.
    destruct (dict_get_default d "beforeCursor" (VStr "")) as [ | x | z | b];
      simpl in Hok |- *; try done.
    rewrite (dict_get_lookup _ _ _ Hu). apply lookup_insert_eq.
Qed.

Lemma stored_uuid_tracks_reply_witness :
  pass_state session_c (Some reply_d) !! "uuid" = Some (VStr "xyz2").
Proof.
  apply (stored_uuid_tracks_reply session_c reply_d "xyz2");
    [reflexivity | discriminate
    | intros e H; vm_compute in H; discriminate H].
Defined.

Lemma pass_twice ss answer :
  pass_state (pass_state ss answer) answer = pass_state ss answer
  ∧ pass_outcome (pass_state ss answer) answer ≠ Rerun.
Proof.
  destruct (run_pass_cases ss answer)
    as [(Ho & E & _) | (d & s & -> & Hf & _ & E & _)].
  - by rewrite !E.
  - assert (fires (pass_state ss (Some d)) d = false) as Hq.
    { destruct (fires (pass_state ss (Some d)) d) eqn:Hf'; [ | done].
      apply fires_iff in Hf' as [_ Hn]. rewrite E in Hn.
      unfold dict_get at 2 in Hn. rewrite lookup_insert_eq in Hn.
      by rewrite py_ne_irrefl in Hn. }
    unfold pass_state at 1, pass_outcome.
    by rewrite (run_pass_closed _ d Hq).
Qed.

(** X9. Lines 24-29: as long as the widget's reply stays the same, only the
    first pass can rerun: from the second pass on the session state no
    longer changes and no pass ends in a rerun. *)
Theorem constant_reply_settles ss answer (n : nat) :
  passes_with answer (S n) ss = pass_state ss answer
  ∧ pass_outcome (passes_with answer (S n) ss) answer ≠ Rerun.
Proof.
  assert (passes_with answer (S n) ss = pass_state ss answer) as E.
  { induction n as [ | n IH]; [reflexivity | ].
    change (passes_with answer (S (S n)) ss)
      with (pass_state (passes_with answer (S n) ss) answer).
    rewrite IH. apply pass_twice. }
  rewrite E. split; [reflexivity | apply pass_twice].
Qed.

Lemma pass_keeps_paired ss answer : paired ss → paired (pass_state ss answer).
Proof.
  intros Hp.
  destruct (pass_outcome ss answer) eqn:Ho;
    [by rewrite (proj1 (run_pass_quiet ss answer ltac:(by rewrite Ho))) |
     | by rewrite (proj1 (run_pass_quiet ss answer ltac:(by rewrite Ho)))].
  destruct (run_pass_rerun ss answer Ho) as (d & b & -> & Hf & _ & E).
  right. exists (dict_get d "uuid"), b. unfold pass_state. rewrite E. simpl.
  split; [apply lookup_insert_eq | ].
  split; [exact (fires_truthy ss d Hf) | ].
  rewrite lookup_insert_ne by done. apply lookup_insert_eq.
Qed.

(** X10. Lines 25-26: the two keys are written together.  In every session
    state reached from one where they are paired (a fresh session, for
    one), either neither key is set, or [uuid] is truthy and [suggestion]
    is the prefix, some text and the closing backtick. *)
Theorem paired_keys_invariant (ss0 ss : session) :
  paired ss0 → reachable ss0 ss → paired ss.
Proof.
  intros H0 Hr. induction Hr as [ | ss answer _ IH]; [exact H0 | ].
  by apply pass_keeps_paired.
Qed.

Lemma paired_keys_invariant_witness :
  paired (pass_state (pass_state ∅ (Some reply_b)) (Some reply_d)).
Proof.
  apply (paired_keys_invariant ∅).
  - left. split; reflexivity.
  - apply reach_pass, reach_pass, reach_start.
Defined.

(** X11. Lines 25-26 over a whole session: however many passes run and
    whatever the widget answers, every key other than [suggestion] and
    [uuid] keeps the value it had, and every key that was set stays set. *)
Theorem session_frame (ss0 ss : session) :
  reachable ss0 ss →
  (∀ k, k ≠ "suggestion" → k ≠ "uuid" → ss !! k = ss0 !! k)
  ∧ (∀ k, is_Some (ss0 !! k) → is_Some (ss !! k)).
Proof.
  intros Hr. induction Hr as [ | ss answer _ [IH1 IH2]]; [done | ].
  destruct (run_pass_cases ss answer)
    as [(_ & -> & _) | (d & s & _ & _ & _ & -> & _)]; [done | ].
  split.
  - intros k Hs Hu. rewrite !lookup_insert_ne by done. by apply IH1.
  - intros k Hk. rewrite !lookup_insert. repeat case_decide; eauto.
Qed.

Lemma session_frame_witness :
  (∀ k, k ≠ "suggestion" → k ≠ "uuid" →
        pass_state session_c (Some reply_d) !! k = session_c !! k)
  ∧ (∀ k, is_Some (session_c !! k) →
          is_Some (pass_state session_c (Some reply_d) !! k)).
Proof.
  apply (session_frame session_c). apply reach_pass, reach_start.
Defined.

End Sessions.
